(** * Post-Deletor: broadcast fan-out and batch deletion (src/bot.py)

    Shallow embedding of the handlers of [bot.py] over the SQLite store
    created by [init_db]:
    - table [channels (channel_id INTEGER PRIMARY KEY)], a list of ids;
    - table [broadcasts (id AUTOINCREMENT, batch_id TEXT, private_chat_id,
      private_message_id, channel_id, channel_message_id)], a list of rows
      in rowid (insertion) order.

    The Telegram client ([context.bot]) and the clock are modelled as
    oracles supplied by an environment record; failures of sqlite calls are
    modelled by booleans of the same record. *)

From Stdlib Require Import ZArith List String Bool Lia.
From Stdlib Require Import DecimalString DecimalZ Sorted.
Import ListNotations.
Open Scope Z_scope.

(** ** Data model *)

(** One row of the [broadcasts] table (the AUTOINCREMENT [id] is the row's
    position in [broadcasts]). *)
Record Broadcast := mkBroadcast {
  batch_id : string;
  private_chat_id : Z;
  private_message_id : Z;
  channel_id : Z;
  channel_message_id : Z
}.

Record Store := mkStore {
  channels : list Z;
  broadcasts : list Broadcast
}.

(** [str(int(time.time()))]: the decimal text of the integer second. *)
Definition str_of_int (z : Z) : string :=
  NilZero.string_of_int (Z.to_int z).

(** ** register_forward *)

(** The incoming message of [register_forward]: [msg.chat.id] and the id of
    [msg.forward_from_chat] when there is one. *)
Record ForwardMsg := mkForwardMsg {
  msg_chat_id : Z;
  forward_from_chat : option Z
}.

(** The sqlite and Telegram outcomes seen by [register_forward]. *)
Record RegisterEnv := mkRegisterEnv {
  r_store_open : bool;   (* aiosqlite.connect succeeds (outside the try) *)
  r_write_ok : bool;     (* the INSERT and the commit both succeed *)
  r_reply_ok : bool      (* msg.reply_text succeeds *)
}.

Inductive RegisterReply :=
| RegIgnored                 (* early [return], nothing sent *)
| RegRegistered (cid : Z)    (* "Registered channel `cid`" *)
| RegLogged                  (* an exception caught by the [except]: logged *)
| RegStoreError.             (* connect failed: the exception leaves the handler *)

(** [INSERT OR IGNORE INTO channels (channel_id) VALUES (?)].  [channel_id]
    is an INTEGER PRIMARY KEY, i.e. the rowid, so the table (and the
    [SELECT channel_id FROM channels] of [broadcast_cmd]) is in ascending
    [channel_id] order: the list is kept sorted and the id goes to its
    place, or is ignored when present. *)
Fixpoint insert_or_ignore (cid : Z) (chs : list Z) : list Z :=
  match chs with
  | [] => [cid]
  | c :: rest =>
      if cid =? c then chs
      else if cid <? c then cid :: chs
      else c :: insert_or_ignore cid rest
  end.

(** The INSERT and the commit happen inside the [try]; if either fails
    nothing is committed and the reply is not sent.  A failing reply after
    the commit is logged too, the channel stays registered. *)
Definition register_forward (env : RegisterEnv) (registration_chat_id : Z)
    (msg : ForwardMsg) (s : Store) : RegisterReply * Store :=
  if negb (msg_chat_id msg =? registration_chat_id) then (RegIgnored, s)
  else match forward_from_chat msg with
       | None => (RegIgnored, s)
       | Some cid =>
           if negb (r_store_open env) then (RegStoreError, s)
           else if negb (r_write_ok env) then (RegLogged, s)
           else
             let s' := mkStore (insert_or_ignore cid (channels s)) (broadcasts s) in
             if r_reply_ok env then (RegRegistered cid, s') else (RegLogged, s')
       end.

(** ** broadcast_cmd *)

Record OrigMsg := mkOrigMsg {
  orig_chat_id : Z;
  orig_message_id : Z
}.

(** [update.effective_chat.id] and [update.message.reply_to_message]. *)
Record CmdUpdate := mkCmdUpdate {
  effective_chat_id : Z;
  reply_to_message : option OrigMsg
}.

Record BroadcastEnv := mkBroadcastEnv {
  now_s : Z;                               (* int(time.time()) *)
  b_store_open : bool;                     (* connect + SELECT succeed *)
  copy_message : Z -> Z -> Z -> option Z;  (* chat_id from_chat_id message_id:
                                              Some sent.message_id, or raises *)
  insert_ok : Z -> bool;                   (* the INSERT for a channel succeeds *)
  commit_ok : bool                         (* db.commit() succeeds *)
}.

Inductive BroadcastReply :=
| BNoReply                                 (* "Please reply to a message..." *)
| BDone (bid : string) (successes failures total : nat)
| BStoreError.                             (* an exception out of the handler *)

(** The [for ch in channels] loop: the rows inserted in the open
    transaction, in order, and the two counters.  The [try] covers both the
    copy and the INSERT. *)
Fixpoint copy_loop (env : BroadcastEnv) (bid : string) (eff : Z) (o : OrigMsg)
    (chs : list Z) : list Broadcast * nat * nat :=
  match chs with
  | [] => ([], 0%nat, 0%nat)
  | ch :: rest =>
      let '(rows, su, fa) := copy_loop env bid eff o rest in
      match copy_message env ch (orig_chat_id o) (orig_message_id o) with
      | Some sent =>
          if insert_ok env ch then
            (mkBroadcast bid eff (orig_message_id o) ch sent :: rows, S su, fa)
          else (rows, su, S fa)
      | None => (rows, su, S fa)
      end
  end.

(** A destination the loop counts in [successes]: its copy returned and its
    INSERT did not raise. *)
Definition delivered (env : BroadcastEnv) (o : OrigMsg) (ch : Z) : bool :=
  match copy_message env ch (orig_chat_id o) (orig_message_id o) with
  | Some _ => insert_ok env ch
  | None => false
  end.

Definition broadcast_cmd (env : BroadcastEnv) (u : CmdUpdate) (s : Store)
    : BroadcastReply * Store :=
  match reply_to_message u with
  | None => (BNoReply, s)
  | Some o =>
      let bid := str_of_int (now_s env) in
      if negb (b_store_open env) then (BStoreError, s)
      else
        let chs := channels s in
        let '(rows, su, fa) := copy_loop env bid (effective_chat_id u) o chs in
        if commit_ok env then
          (BDone bid su fa (List.length chs),
           mkStore (channels s) (broadcasts s ++ rows))
        else (BStoreError, s)   (* uncommitted rows are rolled back on close *)
  end.

(** ** delete_cmd *)

Record DeleteEnv := mkDeleteEnv {
  d_store_open : bool;               (* connect + SELECTs succeed *)
  delete_message : Z -> Z -> bool    (* chat_id message_id: ok or raises *)
}.

Inductive DeleteReply :=
| DNoReply                           (* "Reply to your broadcast message..." *)
| DNoRecord                          (* "No record found for that broadcast." *)
| DDone (deleted not_found total : nat)
| DStoreError.

(** [SELECT batch_id FROM broadcasts WHERE private_chat_id = ? AND
    private_message_id = ?] followed by [fetchone()]: the table has no index
    on these columns and the query no ORDER BY, so SQLite scans in rowid
    order and the first matching row is returned. *)
Definition find_batch (s : Store) (chat mid : Z) : option string :=
  option_map batch_id
    (find (fun r => (private_chat_id r =? chat) && (private_message_id r =? mid))
          (broadcasts s)).

(** [SELECT channel_id, channel_message_id FROM broadcasts WHERE batch_id = ?]. *)
Definition batch_entries (s : Store) (bid : string) : list (Z * Z) :=
  map (fun r => (channel_id r, channel_message_id r))
    (filter (fun r => String.eqb (batch_id r) bid) (broadcasts s)).

Fixpoint delete_loop (env : DeleteEnv) (entries : list (Z * Z)) : nat * nat :=
  match entries with
  | [] => (0%nat, 0%nat)
  | (ch, mid) :: rest =>
      let '(d, nf) := delete_loop env rest in
      if delete_message env ch mid then (S d, nf) else (d, S nf)
  end.

(** The reply, the delete calls made (in order) and the store afterwards:
    the handler only reads the store. *)
Definition delete_cmd (env : DeleteEnv) (u : CmdUpdate) (s : Store)
    : DeleteReply * list (Z * Z) * Store :=
  match reply_to_message u with
  | None => (DNoReply, [], s)
  | Some o =>
      if negb (d_store_open env) then (DStoreError, [], s)
      else
        match find_batch s (effective_chat_id u) (orig_message_id o) with
        | None => (DNoRecord, [], s)
        | Some bid =>
            let entries := batch_entries s bid in
            let '(d, nf) := delete_loop env entries in
            (DDone d nf (List.length entries), entries, s)
        end
  end.

(** ** init_db and start_cmd *)

(** [init_db]: both tables are created with [CREATE TABLE IF NOT EXISTS];
    [None] is a database file without the tables, [Some s] one that already
    holds them. *)
Definition init_db (db : option Store) : Store :=
  match db with
  | None => mkStore [] []
  | Some s => s
  end.

(** [start_cmd]: the row count of [channels] (the [SELECT COUNT] query),
    the number in the reply; [None] when connect or the query fails and the
    exception leaves the handler. *)
Definition start_cmd (store_open : bool) (s : Store) : option nat :=
  if store_open then Some (List.length (channels s)) else None.

(** The stores the bot can reach: [init_db] at start-up (also on a restart
    over an existing file), then any sequence of handler runs. *)
Inductive reachable : Store -> Prop :=
| reach_init (db : option Store) :
    (forall s, db = Some s -> reachable s) -> reachable (init_db db)
| reach_register (env : RegisterEnv) (reg : Z) (m : ForwardMsg) (s : Store) :
    reachable s -> reachable (snd (register_forward env reg m s))
| reach_broadcast (env : BroadcastEnv) (u : CmdUpdate) (s : Store) :
    reachable s -> reachable (snd (broadcast_cmd env u s))
| reach_delete (env : DeleteEnv) (u : CmdUpdate) (s : Store) :
    reachable s -> reachable (snd (delete_cmd env u s)).

(** The store invariant kept by the handlers: the registry is in the
    table's ascending order, and every broadcast row points at a registered
    channel. *)
Definition store_ok (s : Store) : Prop :=
  StronglySorted Z.lt (channels s) /\
  forall r, In r (broadcasts s) -> In (channel_id r) (channels s).

(** ** Concrete inputs and scenarios *)

(** Concrete inputs used by the examples below: channel 20 rejects every
    copy, the others accept and answer with a fresh message id. *)
Definition ex_copy (ch from mid : Z) : option Z :=
  if ch =? 20 then None else Some (ch * 1000 + mid).

Definition ex_benv (t : Z) : BroadcastEnv :=
  mkBroadcastEnv t true ex_copy (fun _ => true) true.

Definition ex_denv : DeleteEnv := mkDeleteEnv true (fun _ _ => true).

Definition ex_store : Store := mkStore [10; 20] [].

Definition ex_cmd (mid : Z) : CmdUpdate :=
  mkCmdUpdate 7 (Some (mkOrigMsg 7 mid)).

(** The store after Scenario A below. *)
Definition ex_after_A : Store :=
  snd (broadcast_cmd (ex_benv 100) (ex_cmd 5) ex_store).

(** Every INSERT of a member row fails. *)
Definition ex_benv_insert_fails : BroadcastEnv :=
  mkBroadcastEnv 100 true ex_copy (fun _ => false) true.

(** Every copy fails. *)
Definition ex_benv_all_fail : BroadcastEnv :=
  mkBroadcastEnv 100 true (fun _ _ _ => None) (fun _ => true) true.

(** The final commit fails. *)
Definition ex_benv_commit_fails : BroadcastEnv :=
  mkBroadcastEnv 100 true ex_copy (fun _ => true) false.

(** A registration whose store and reply all work. *)
Definition ex_renv : RegisterEnv := mkRegisterEnv true true true.

(** Scenario A of the spec: success for 10, failure for 20. *)
Example scenario_A :
  broadcast_cmd (ex_benv 100) (ex_cmd 5) ex_store
  = (BDone "100" 1 1 2,
     mkStore [10; 20] [mkBroadcast "100" 7 5 10 10005]).
Proof. reflexivity. Qed.

Example str_of_int_ex : str_of_int 1700000000 = "1700000000"%string.
Proof. reflexivity. Qed.

(** ** Shared lemmas *)

Section Lemmas.

Lemma str_of_int_not_nil (z : Z) :
  Z.to_int z <> Decimal.Pos Decimal.Nil /\ Z.to_int z <> Decimal.Neg Decimal.Nil.
Proof.
  pose proof (DecimalZ.of_to z) as Hz.
  split; intro E; rewrite E in Hz; simpl in Hz; subst z; discriminate E.
Qed.

Lemma str_of_int_inj (a b : Z) : str_of_int a = str_of_int b -> a = b.
Proof.
  unfold str_of_int; intro H.
  apply (f_equal NilZero.int_of_string) in H.
  destruct (str_of_int_not_nil a) as [Ha1 Ha2].
  destruct (str_of_int_not_nil b) as [Hb1 Hb2].
  rewrite !NilZero.isi in H by assumption.
  injection H as H. now apply DecimalZ.to_int_inj.
Qed.

Lemma find_app {A} (f : A -> bool) (l1 l2 : list A) :
  find f (l1 ++ l2) = match find f l1 with Some x => Some x | None => find f l2 end.
Proof.
  induction l1 as [|x l1 IH]; simpl; [reflexivity|].
  destruct (f x); [reflexivity | exact IH].
Qed.

Lemma delete_loop_counts (env : DeleteEnv) (entries : list (Z * Z)) :
  let '(d, nf) := delete_loop env entries in (d + nf)%nat = List.length entries.
Proof.
  induction entries as [|[ch mid] rest IH]; simpl; [reflexivity|].
  destruct (delete_loop env rest) as [d nf].
  destruct (delete_message env ch mid); simpl; lia.
Qed.

(** What the fan-out loop returns: the counters add up, one row per success,
    every row carries the batch id and origin, and a row for [(ch, mid)]
    exists exactly when [ch] is iterated, its copy returned [mid] and its
    INSERT succeeded. *)
Lemma copy_loop_spec (env : BroadcastEnv) (bid : string) (eff : Z)
    (o : OrigMsg) (chs : list Z) :
  let '(rows, su, fa) := copy_loop env bid eff o chs in
  (su + fa)%nat = List.length chs /\ List.length rows = su /\
  Forall (fun r => batch_id r = bid /\ private_chat_id r = eff /\
                   private_message_id r = orig_message_id o) rows /\
  (forall ch mid,
     (exists r, In r rows /\ channel_id r = ch /\ channel_message_id r = mid)
     <-> In ch chs /\ copy_message env ch (orig_chat_id o) (orig_message_id o) = Some mid
         /\ insert_ok env ch = true).
Proof.
  induction chs as [|c rest IH]; simpl.
  - split; [reflexivity|]. split; [reflexivity|]. split; [constructor|].
    intros ch mid; split.
    + intros (r & [] & _).
    + intros ([] & _).
  - destruct (copy_loop env bid eff o rest) as [[rows su] fa].
    destruct IH as (Hc & Hl & Hf & Hi).
    destruct (copy_message env c (orig_chat_id o) (orig_message_id o)) as [sent|] eqn:Ec;
      [destruct (insert_ok env c) eqn:Ei|].
    + split; [simpl; lia|]. split; [simpl; lia|]. split; [constructor; auto|].
      intros ch mid; split.
      * intros (r & [<- | Hr] & <- & <-); simpl; [intuition auto|].
        destruct (proj1 (Hi _ _) (ex_intro _ r (conj Hr (conj eq_refl eq_refl))))
          as (? & ? & ?); intuition auto.
      * intros ([<- | Hin] & Hcp & Hins).
        -- rewrite Ec in Hcp; injection Hcp as <-.
           exists (mkBroadcast bid eff (orig_message_id o) c sent); simpl; intuition auto.
        -- destruct (proj2 (Hi ch mid) (conj Hin (conj Hcp Hins))) as (r & ? & ? & ?).
           exists r; simpl; intuition auto.
    + split; [simpl; lia|]. split; [assumption|]. split; [assumption|].
      intros ch mid; split.
      * intros H; destruct (proj1 (Hi ch mid) H) as (? & ? & ?); intuition auto.
      * intros ([<- | Hin] & Hcp & Hins); [congruence|].
        apply Hi; intuition auto.
    + split; [simpl; lia|]. split; [assumption|]. split; [assumption|].
      intros ch mid; split.
      * intros H; destruct (proj1 (Hi ch mid) H) as (? & ? & ?); intuition auto.
      * intros ([<- | Hin] & Hcp & Hins); [congruence|].
        apply Hi; intuition auto.
Qed.

Lemma copy_loop_counters (env : BroadcastEnv) (bid : string) (eff : Z)
    (o : OrigMsg) (chs : list Z) :
  let '(_, su, fa) := copy_loop env bid eff o chs in
  su = List.length (filter (delivered env o) chs) /\
  fa = List.length (filter (fun ch => negb (delivered env o ch)) chs).
Proof.
  induction chs as [|c rest IH]; simpl; [split; reflexivity|].
  destruct (copy_loop env bid eff o rest) as [[rows su] fa].
  destruct IH as [-> ->].
  remember (delivered env o c) as dc eqn:Ed. unfold delivered in Ed.
  destruct (copy_message env c (orig_chat_id o) (orig_message_id o));
    [destruct (insert_ok env c)|]; subst dc; simpl; split; reflexivity.
Qed.

Lemma insert_or_ignore_in (cid x : Z) (chs : list Z) :
  In x (insert_or_ignore cid chs) <-> x = cid \/ In x chs.
Proof.
  induction chs as [|c rest IH]; cbn [insert_or_ignore].
  - simpl; split; [intros [<- | []]; left; reflexivity | intros [-> | []]; left; reflexivity].
  - destruct (cid =? c) eqn:E1.
    + apply Z.eqb_eq in E1; subst c.
      split; [intros H; right; exact H | intros [-> | H]; [left; reflexivity | exact H]].
    + destruct (cid <? c).
      * simpl; split; (intros [H | H]; [left; symmetry; exact H | right; exact H]).
      * simpl; rewrite IH; split; intros H; intuition auto.
Qed.

Lemma insert_or_ignore_sorted (cid : Z) (chs : list Z) :
  StronglySorted Z.lt chs -> StronglySorted Z.lt (insert_or_ignore cid chs).
Proof.
  induction 1 as [|c rest Hs IH Hf]; cbn [insert_or_ignore].
  - constructor; constructor.
  - destruct (cid =? c) eqn:E1; [constructor; assumption|].
    destruct (cid <? c) eqn:E2.
    + apply Z.ltb_lt in E2. constructor; [constructor; assumption|].
      constructor; [exact E2|].
      eapply Forall_impl; [|exact Hf]. intros y Hy; lia.
    + apply Z.eqb_neq in E1. apply Z.ltb_ge in E2.
      constructor; [exact IH|].
      apply Forall_forall; intros x Hx.
      apply insert_or_ignore_in in Hx as [-> | Hx]; [lia|].
      exact (proj1 (Forall_forall _ _) Hf x Hx).
Qed.

Lemma insert_or_ignore_present (cid : Z) (chs : list Z) :
  StronglySorted Z.lt chs -> In cid chs -> insert_or_ignore cid chs = chs.
Proof.
  induction 1 as [|c rest Hs IH Hf]; [intros []|].
  intros [<- | Hin]; cbn [insert_or_ignore]; [rewrite Z.eqb_refl; reflexivity|].
  pose proof (proj1 (Forall_forall _ _) Hf cid Hin) as Hlt.
  destruct (cid =? c) eqn:E1; [apply Z.eqb_eq in E1; lia|].
  destruct (cid <? c) eqn:E2; [apply Z.ltb_lt in E2; lia|].
  rewrite (IH Hin); reflexivity.
Qed.

Lemma insert_or_ignore_absent (cid : Z) (chs : list Z) :
  ~ In cid chs -> List.length (insert_or_ignore cid chs) = S (List.length chs).
Proof.
  induction chs as [|c rest IH]; cbn [insert_or_ignore]; [reflexivity|].
  intros Hn.
  destruct (cid =? c) eqn:E1; [apply Z.eqb_eq in E1; subst c; exfalso; apply Hn; left; reflexivity|].
  destruct (cid <? c); [reflexivity|].
  simpl; rewrite IH; [reflexivity|]. intros H; apply Hn; right; exact H.
Qed.

Lemma sorted_nodup (l : list Z) : StronglySorted Z.lt l -> NoDup l.
Proof.
  induction 1 as [|c rest _ IH Hf]; constructor; [|exact IH].
  intros Hin. pose proof (proj1 (Forall_forall _ _) Hf c Hin); lia.
Qed.

End Lemmas.

(** ** Handler-level facts *)

Lemma broadcast_cmd_done (env : BroadcastEnv) (u : CmdUpdate) (s s' : Store)
    (b : string) (su fa t : nat) :
  broadcast_cmd env u s = (BDone b su fa t, s') ->
  exists o rows,
    reply_to_message u = Some o /\ b = str_of_int (now_s env) /\
    b_store_open env = true /\ commit_ok env = true /\
    copy_loop env b (effective_chat_id u) o (channels s) = (rows, su, fa) /\
    t = List.length (channels s) /\
    s' = mkStore (channels s) (broadcasts s ++ rows).
Proof.
  unfold broadcast_cmd.
  destruct (reply_to_message u) as [o|]; [|discriminate].
  destruct (b_store_open env); simpl; [|discriminate].
  destruct (copy_loop env (str_of_int (now_s env)) (effective_chat_id u) o (channels s))
    as [[rows su'] fa'] eqn:E.
  destruct (commit_ok env); [|discriminate].
  intros H; injection H as <- <- <- <- <-.
  exists o, rows; repeat split; assumption.
Qed.

(** Whatever [broadcast_cmd] returns, it leaves [channels] alone and only
    appends rows to [broadcasts]. *)
Lemma broadcast_cmd_appends (env : BroadcastEnv) (u : CmdUpdate) (s s' : Store)
    (r : BroadcastReply) :
  broadcast_cmd env u s = (r, s') ->
  channels s' = channels s /\ exists rows, broadcasts s' = broadcasts s ++ rows.
Proof.
  unfold broadcast_cmd.
  destruct (reply_to_message u) as [o|].
  2:{ intros H; injection H as _ <-; split; [reflexivity|]. exists []; now rewrite app_nil_r. }
  destruct (b_store_open env); simpl.
  2:{ intros H; injection H as _ <-; split; [reflexivity|]. exists []; now rewrite app_nil_r. }
  destruct (copy_loop env (str_of_int (now_s env)) (effective_chat_id u) o (channels s))
    as [[rows su'] fa'].
  destruct (commit_ok env); intros H; injection H as _ <-.
  - split; [reflexivity|]. exists rows; reflexivity.
  - split; [reflexivity|]. exists []; now rewrite app_nil_r.
Qed.

Lemma delete_cmd_keeps_store (env : DeleteEnv) (u : CmdUpdate) (s s2 : Store)
    (r : DeleteReply) (tr : list (Z * Z)) :
  delete_cmd env u s = (r, tr, s2) -> s2 = s.
Proof.
  unfold delete_cmd.
  destruct (reply_to_message u) as [o|]; [|intros E; injection E as _ _ <-; reflexivity].
  destruct (d_store_open env); simpl; [|intros E; injection E as _ _ <-; reflexivity].
  destruct (find_batch s _ _) as [bid|]; [|intros E; injection E as _ _ <-; reflexivity].
  destruct (delete_loop _ _); intros E; injection E as _ _ <-; reflexivity.
Qed.

(** [register_forward] either leaves the store alone or inserts the
    forwarded channel id, and never touches the broadcast rows. *)
Lemma register_forward_cases (env : RegisterEnv) (reg : Z) (m : ForwardMsg) (s : Store) :
  let s' := snd (register_forward env reg m s) in
  s' = s \/
  (exists cid, msg_chat_id m = reg /\ forward_from_chat m = Some cid /\
     r_store_open env = true /\ r_write_ok env = true /\
     s' = mkStore (insert_or_ignore cid (channels s)) (broadcasts s)).
Proof.
  unfold register_forward; simpl.
  destruct (msg_chat_id m =? reg) eqn:Ec; simpl; [|left; reflexivity].
  destruct (forward_from_chat m) as [cid|] eqn:Ef; [|left; reflexivity].
  destruct (r_store_open env) eqn:Eo; simpl; [|left; reflexivity].
  destruct (r_write_ok env) eqn:Ew; simpl; [|left; reflexivity].
  right; exists cid. apply Z.eqb_eq in Ec.
  repeat split; try assumption.
  destruct (r_reply_ok env); reflexivity.
Qed.

(** ** C1: retracting the same origin twice *)

(** C1 (counterexample).  After Scenario A, a retraction of origin (7, 5)
    deletes the single member; a second retraction of the same origin does
    not yield "no record found": it resolves the same batch and tries the
    same delete again. *)
Lemma C1_second_retraction_not_not_found :
  let '(r1, _, s2) := delete_cmd ex_denv (ex_cmd 5) ex_after_A in
  let '(r2, tr2, _) := delete_cmd ex_denv (ex_cmd 5) s2 in
  r1 = DDone 1 0 1 /\ r2 = DDone 1 0 1 /\ tr2 = [(10, 10005)] /\ r2 <> DNoRecord.
Proof. vm_compute. repeat split; discriminate. Qed.

(** C1 (amended).  [delete_cmd] neither purges nor flags the batch: the
    store after a retraction is the store before it, so a second retraction
    with the same origin reference (and a reachable store) resolves the same
    batch again and issues the same delete calls on all of its members. *)
Theorem C1_retraction_keeps_batch (env1 env2 : DeleteEnv) (u : CmdUpdate)
    (s s' : Store) (d nf t : nat) (tr : list (Z * Z)) :
  delete_cmd env1 u s = (DDone d nf t, tr, s') ->
  d_store_open env2 = true ->
  s' = s /\ exists d' nf', delete_cmd env2 u s' = (DDone d' nf' t, tr, s').
Proof.
  unfold delete_cmd.
  destruct (reply_to_message u) as [o|]; [|discriminate].
  destruct (d_store_open env1); simpl; [|discriminate].
  destruct (find_batch s (effective_chat_id u) (orig_message_id o)) as [bid|] eqn:Ef;
    [|discriminate].
  destruct (delete_loop env1 (batch_entries s bid)) as [d1 nf1].
  intros H Hopen; injection H as <- <- <- <- <-.
  split; [reflexivity|].
  rewrite Hopen; simpl. rewrite Ef.
  destruct (delete_loop env2 (batch_entries s bid)) as [d2 nf2].
  exists d2, nf2; reflexivity.
Qed.

Lemma C1_retraction_keeps_batch_witness :
  delete_cmd ex_denv (ex_cmd 5) ex_after_A = (DDone 1 0 1, [(10, 10005)], ex_after_A) /\
  d_store_open ex_denv = true /\
  (ex_after_A = ex_after_A /\ exists d' nf',
     delete_cmd ex_denv (ex_cmd 5) ex_after_A
     = (DDone d' nf' 1, [(10, 10005)], ex_after_A)).
Proof.
  assert (H : delete_cmd ex_denv (ex_cmd 5) ex_after_A
              = (DDone 1 0 1, [(10, 10005)], ex_after_A)) by reflexivity.
  split; [exact H|]. split; [reflexivity|].
  exact (C1_retraction_keeps_batch ex_denv ex_denv (ex_cmd 5) ex_after_A ex_after_A
           1 0 1 [(10, 10005)] H eq_refl).
Defined.

(** ** C2: batch identifiers *)

(** C2 (counterexample).  Two broadcasts within the same second (of two
    different private messages) get the same [batch_id] "100". *)
Lemma C2_same_second_collision :
  let '(r1, s1) := broadcast_cmd (ex_benv 100) (ex_cmd 5) ex_store in
  let '(r2, _) := broadcast_cmd (ex_benv 100) (ex_cmd 6) s1 in
  r1 = BDone "100" 1 1 2 /\ r2 = BDone "100" 1 1 2.
Proof. vm_compute. split; reflexivity. Qed.

(** C2 (amended).  The [batch_id] of a broadcast is the decimal text of the
    integer wall-clock second: two broadcasts get the same [batch_id] exactly
    when they run in the same second. *)
Theorem C2_batch_id_is_second (env1 env2 : BroadcastEnv) (u1 u2 : CmdUpdate)
    (s1 s2 s1' s2' : Store) (b1 b2 : string) (su1 fa1 t1 su2 fa2 t2 : nat) :
  broadcast_cmd env1 u1 s1 = (BDone b1 su1 fa1 t1, s1') ->
  broadcast_cmd env2 u2 s2 = (BDone b2 su2 fa2 t2, s2') ->
  (b1 = b2 <-> now_s env1 = now_s env2).
Proof.
  intros H1 H2.
  destruct (broadcast_cmd_done _ _ _ _ _ _ _ _ H1) as (o1 & r1 & _ & -> & _).
  destruct (broadcast_cmd_done _ _ _ _ _ _ _ _ H2) as (o2 & r2 & _ & -> & _).
  split; [apply str_of_int_inj | intros ->; reflexivity].
Qed.

Lemma C2_batch_id_is_second_witness :
  ("100" = "101")%string <-> now_s (ex_benv 100) = now_s (ex_benv 101).
Proof.
  exact (C2_batch_id_is_second (ex_benv 100) (ex_benv 101) (ex_cmd 5) (ex_cmd 6)
           ex_store ex_after_A ex_after_A
           (snd (broadcast_cmd (ex_benv 101) (ex_cmd 6) ex_after_A))
           "100" "101" 1 1 2 1 1 2 eq_refl eq_refl).
Defined.

(** ** C3: resolving a batch from its origin *)

(** C3 (counterexample).  Origin (7, 5) is broadcast at second 100 and again
    at second 200; the lookup returns the batch of second 100, not the most
    recent one. *)
Lemma C3_lookup_returns_oldest :
  let '(r2, s2) := broadcast_cmd (ex_benv 200) (ex_cmd 5) ex_after_A in
  r2 = BDone "200" 1 1 2 /\ find_batch s2 7 5 = Some "100"%string.
Proof. vm_compute. split; reflexivity. Qed.

(** C3 (amended).  The lookup returns the batch of the first row (in rowid
    order) recorded for the origin: once an origin has a row, no later
    broadcast changes the batch it resolves to. *)
Theorem C3_lookup_keeps_first (env : BroadcastEnv) (u : CmdUpdate) (s s' : Store)
    (r : BroadcastReply) (chat mid : Z) (b : string) :
  broadcast_cmd env u s = (r, s') ->
  find_batch s chat mid = Some b ->
  find_batch s' chat mid = Some b.
Proof.
  intros Hb Hf.
  destruct (broadcast_cmd_appends _ _ _ _ _ Hb) as (_ & rows & Hr).
  unfold find_batch in *. rewrite Hr, find_app.
  destruct (find _ (broadcasts s)); [exact Hf | discriminate].
Qed.

Lemma C3_lookup_keeps_first_witness :
  find_batch (snd (broadcast_cmd (ex_benv 200) (ex_cmd 5) ex_after_A)) 7 5
  = Some "100"%string.
Proof.
  apply (C3_lookup_keeps_first (ex_benv 200) (ex_cmd 5) ex_after_A _
           (BDone "200" 1 1 2)); reflexivity.
Defined.

(** ** C4: which errors leave the broadcast handler *)

(** C4 (counterexample).  The INSERT of the member row fails for every
    channel (the copy to channel 10 succeeded): the handler does not fail
    with a store error, it reports the INSERT failure as an ordinary failed
    destination and records nothing. *)
Lemma C4_insert_failure_is_counted :
  broadcast_cmd ex_benv_insert_fails (ex_cmd 5) ex_store
  = (BDone "100" 0 2 2, ex_store).
Proof. reflexivity. Qed.

(** C4 (amended).  Copy failures and failures of the member INSERT are both
    caught per destination and counted: if the store opens (connect and the
    channel SELECT) and the final commit succeeds, the handler returns a
    summary whatever the copy and INSERT outcomes, with each destination
    counted once, in [successes] when its copy and INSERT both succeeded and
    in [failures] when either raised.  A failure to open the store or of the
    final commit makes the whole call fail with a store error and leaves the
    store as it was (copies already sent remain). *)
Theorem C4_error_propagation (env : BroadcastEnv) (u : CmdUpdate) (s : Store)
    (o : OrigMsg) :
  reply_to_message u = Some o ->
  (b_store_open env = true -> commit_ok env = true ->
   exists s',
     broadcast_cmd env u s
     = (BDone (str_of_int (now_s env))
              (List.length (filter (delivered env o) (channels s)))
              (List.length (filter (fun ch => negb (delivered env o ch)) (channels s)))
              (List.length (channels s)), s')) /\
  (b_store_open env = false \/ commit_ok env = false ->
   broadcast_cmd env u s = (BStoreError, s)).
Proof.
  intros Hu. unfold broadcast_cmd. rewrite Hu.
  pose proof (copy_loop_counters env (str_of_int (now_s env)) (effective_chat_id u) o
                (channels s)) as Hc.
  destruct (copy_loop env (str_of_int (now_s env)) (effective_chat_id u) o (channels s))
    as [[rows su] fa].
  destruct Hc as [-> ->].
  split.
  - intros -> ->; simpl. eexists; reflexivity.
  - intros [-> | ->]; [reflexivity|].
    destruct (b_store_open env); reflexivity.
Qed.

(** The INSERT-failure input gives the summary (0 successes, 2 failures);
    a failing commit gives the store error. *)
Lemma C4_error_propagation_witness :
  (exists s', broadcast_cmd ex_benv_insert_fails (ex_cmd 5) ex_store
              = (BDone "100" 0 2 2, s')) /\
  broadcast_cmd ex_benv_commit_fails (ex_cmd 5) ex_store = (BStoreError, ex_store).
Proof.
  split.
  - exact (proj1 (C4_error_propagation ex_benv_insert_fails (ex_cmd 5) ex_store
                    (mkOrigMsg 7 5) eq_refl) eq_refl eq_refl).
  - exact (proj2 (C4_error_propagation ex_benv_commit_fails (ex_cmd 5) ex_store
                    (mkOrigMsg 7 5) eq_refl) (or_intror eq_refl)).
Defined.

(** ** Row bookkeeping *)

Lemma find_none_all {A} (f : A -> bool) (l : list A) :
  (forall x, In x l -> f x = false) -> find f l = None.
Proof.
  induction l as [|x l IH]; simpl; intros H; [reflexivity|].
  rewrite (H x (or_introl eq_refl)). apply IH; auto.
Qed.

Lemma filter_all_true {A} (f : A -> bool) (l : list A) :
  Forall (fun x => f x = true) l -> filter f l = l.
Proof.
  induction 1 as [|x l Hx _ IH]; simpl; [reflexivity|].
  rewrite Hx, IH; reflexivity.
Qed.

Lemma filter_all_false {A} (f : A -> bool) (l : list A) :
  (forall x, In x l -> f x = false) -> filter f l = [].
Proof.
  induction l as [|x l IH]; simpl; intros H; [reflexivity|].
  rewrite (H x (or_introl eq_refl)). apply IH; auto.
Qed.

Lemma batch_entries_app (s : Store) (rows : list Broadcast) (b : string) :
  Forall (fun r => batch_id r = b) rows ->
  batch_entries (mkStore (channels s) (broadcasts s ++ rows)) b
  = batch_entries s b ++ map (fun r => (channel_id r, channel_message_id r)) rows.
Proof.
  intros Hf. unfold batch_entries; simpl.
  rewrite filter_app, map_app, (filter_all_true _ rows); [reflexivity|].
  eapply Forall_impl; [|exact Hf]. intros r ->; apply String.eqb_refl.
Qed.

(** ** C5: broadcast counters *)

(** C5 (counterexample).  A second broadcast in the same second reports one
    success, but two member rows are stored under its [batch_id]: the
    earlier broadcast's row shares it. *)
Lemma C5_rows_under_batch_exceed_successes :
  let '(r2, s2) := broadcast_cmd (ex_benv 100) (ex_cmd 6) ex_after_A in
  r2 = BDone "100" 1 1 2 /\ List.length (batch_entries s2 "100") = 2%nat.
Proof. vm_compute. split; reflexivity. Qed.

(** C5 (amended).  When the store opens and the final commit succeeds, a
    broadcast returns a summary with [successes + failures = total =
    |channels|]; it appends exactly [successes] rows, all under its
    [batch_id], so the rows stored under that id are those already there
    (from broadcasts in the same second) plus [successes], and exactly
    [successes] when there were none; an empty registry yields the summary
    (0, 0, 0) with the store unchanged, not an error. *)
Theorem C5_broadcast_counts (env : BroadcastEnv) (u : CmdUpdate) (o : OrigMsg)
    (s : Store) :
  reply_to_message u = Some o ->
  b_store_open env = true ->
  commit_ok env = true ->
  let b := str_of_int (now_s env) in
  exists su fa s',
    broadcast_cmd env u s = (BDone b su fa (List.length (channels s)), s') /\
    (su + fa)%nat = List.length (channels s) /\
    List.length (batch_entries s' b) = (List.length (batch_entries s b) + su)%nat /\
    (batch_entries s b = [] -> List.length (batch_entries s' b) = su) /\
    (channels s = [] -> su = 0%nat /\ fa = 0%nat /\ s' = s).
Proof.
  intros Hu Hopen Hcommit b.
  unfold broadcast_cmd. rewrite Hu, Hopen; cbn [negb].
  fold b.
  pose proof (copy_loop_spec env b (effective_chat_id u) o (channels s)) as Hs.
  destruct (copy_loop env b (effective_chat_id u) o (channels s)) as [[rows su] fa].
  destruct Hs as (Hc & Hlen & Hf & _).
  rewrite Hcommit.
  exists su, fa, (mkStore (channels s) (broadcasts s ++ rows)).
  assert (He : batch_entries (mkStore (channels s) (broadcasts s ++ rows)) b
               = batch_entries s b ++ map (fun r => (channel_id r, channel_message_id r)) rows).
  { apply batch_entries_app. eapply Forall_impl; [|exact Hf]. intros r [Hb _]; exact Hb. }
  split; [reflexivity|]. split; [exact Hc|].
  rewrite He, length_app, length_map, Hlen.
  split; [reflexivity|]. split; [intros ->; reflexivity|].
  intros Hn. rewrite Hn in Hc; simpl in Hc.
  assert (su = 0%nat) as -> by lia. assert (fa = 0%nat) as -> by lia.
  destruct rows; [|discriminate Hlen].
  split; [reflexivity|]. split; [reflexivity|].
  destruct s as [chs bs]; simpl. rewrite app_nil_r; reflexivity.
Qed.

(** Scenario A (two channels) and Scenario D (empty registry). *)
Lemma C5_broadcast_counts_witness :
  (exists su fa s',
     broadcast_cmd (ex_benv 100) (ex_cmd 5) ex_store = (BDone "100" su fa 2, s') /\
     (su + fa)%nat = 2%nat /\
     List.length (batch_entries s' "100") = (List.length (batch_entries ex_store "100") + su)%nat /\
     (batch_entries ex_store "100" = [] -> List.length (batch_entries s' "100") = su) /\
     (channels ex_store = [] -> su = 0%nat /\ fa = 0%nat /\ s' = ex_store)) /\
  (exists su fa s',
     broadcast_cmd (ex_benv 100) (ex_cmd 5) (mkStore [] []) = (BDone "100" su fa 0, s') /\
     (su + fa)%nat = 0%nat /\
     List.length (batch_entries s' "100") = (List.length (batch_entries (mkStore [] []) "100") + su)%nat /\
     (batch_entries (mkStore [] []) "100" = [] -> List.length (batch_entries s' "100") = su) /\
     (channels (mkStore [] []) = [] -> su = 0%nat /\ fa = 0%nat /\ s' = mkStore [] [])).
Proof.
  split.
  - exact (C5_broadcast_counts (ex_benv 100) (ex_cmd 5) (mkOrigMsg 7 5) ex_store
             eq_refl eq_refl eq_refl).
  - exact (C5_broadcast_counts (ex_benv 100) (ex_cmd 5) (mkOrigMsg 7 5) (mkStore [] [])
             eq_refl eq_refl eq_refl).
Defined.

(** Scenario D of the spec: an empty registry. *)
Example scenario_D :
  broadcast_cmd (ex_benv 100) (ex_cmd 5) (mkStore [] [])
  = (BDone "100" 0 0 0, mkStore [] []).
Proof. reflexivity. Qed.

(** ** C6: what a retraction attempts *)

(** C6 (counterexample).  Messages 5 and 6 are broadcast in the same second;
    the broadcast of message 5 recorded one member, yet retracting message 5
    also deletes the copy of message 6. *)
Lemma C6_retraction_takes_foreign_members :
  let s2 := snd (broadcast_cmd (ex_benv 100) (ex_cmd 6) ex_after_A) in
  broadcasts ex_after_A = [mkBroadcast "100" 7 5 10 10005] /\
  delete_cmd ex_denv (ex_cmd 5) s2 = (DDone 2 0 2, [(10, 10005); (10, 10006)], s2).
Proof. vm_compute. split; reflexivity. Qed.

(** C6 (amended).  A retraction attempts deletes on exactly the rows stored
    under the resolved [batch_id].  When the store held no row with that
    [batch_id] (no other broadcast in the same second) and no row for that
    origin, the targets of retracting the origin are exactly the
    (channel, remote id) pairs the broadcast recorded, in order. *)
Theorem C6_round_trip (env : BroadcastEnv) (denv : DeleteEnv) (u u' : CmdUpdate)
    (o o' : OrigMsg) (s s' : Store) (b : string) (su fa t : nat) :
  reply_to_message u = Some o ->
  (forall r, In r (broadcasts s) ->
     batch_id r <> b /\
     ~ (private_chat_id r = effective_chat_id u /\ private_message_id r = orig_message_id o)) ->
  broadcast_cmd env u s = (BDone b su fa t, s') ->
  reply_to_message u' = Some o' ->
  effective_chat_id u' = effective_chat_id u ->
  orig_message_id o' = orig_message_id o ->
  d_store_open denv = true ->
  exists rows,
    broadcasts s' = broadcasts s ++ rows /\
    snd (fst (delete_cmd denv u' s'))
    = map (fun r => (channel_id r, channel_message_id r)) rows.
Proof.
  intros Hu Hfresh H Hu' Hc Hm Hopen.
  destruct (broadcast_cmd_done _ _ _ _ _ _ _ _ H)
    as (o0 & rows & Ho & _ & _ & _ & Hl & _ & ->).
  rewrite Hu in Ho; injection Ho as <-.
  pose proof (copy_loop_spec env b (effective_chat_id u) o (channels s)) as Hs.
  rewrite Hl in Hs. destruct Hs as (_ & _ & Hf & _).
  exists rows; split; [reflexivity|].
  assert (Hfind : find_batch (mkStore (channels s) (broadcasts s ++ rows))
                    (effective_chat_id u') (orig_message_id o')
                  = match rows with [] => None | _ :: _ => Some b end).
  { unfold find_batch; simpl. rewrite find_app, Hc, Hm.
    rewrite find_none_all.
    2:{ intros r Hr. destruct (Hfresh r Hr) as [_ Hn].
        apply Bool.not_true_iff_false; intros E.
        apply andb_true_iff in E as [E1 E2]. apply Z.eqb_eq in E1, E2. tauto. }
    destruct rows as [|r rows']; [reflexivity|].
    inversion Hf as [|? ? [Hb [Hrc Hrm]] _]; subst.
    simpl. rewrite Hrm, Hrc, !Z.eqb_refl; reflexivity. }
  assert (Hent : batch_entries (mkStore (channels s) (broadcasts s ++ rows)) b
                 = map (fun r => (channel_id r, channel_message_id r)) rows).
  { rewrite batch_entries_app.
    2:{ eapply Forall_impl; [|exact Hf]. intros x [Hx _]; exact Hx. }
    unfold batch_entries at 1.
    rewrite filter_all_false; [reflexivity|].
    intros x Hx; apply Bool.not_true_iff_false.
    intros E; apply String.eqb_eq in E; exact (proj1 (Hfresh x Hx) E). }
  unfold delete_cmd; rewrite Hu', Hopen, Hfind.
  destruct rows as [|r rows']; [reflexivity|].
  cbn [negb]. rewrite Hent.
  destruct (delete_loop _ _); reflexivity.
Qed.

Lemma C6_round_trip_witness :
  exists rows,
    broadcasts ex_after_A = broadcasts ex_store ++ rows /\
    snd (fst (delete_cmd ex_denv (ex_cmd 5) ex_after_A))
    = map (fun r => (channel_id r, channel_message_id r)) rows.
Proof.
  apply (C6_round_trip (ex_benv 100) ex_denv (ex_cmd 5) (ex_cmd 5)
           (mkOrigMsg 7 5) (mkOrigMsg 7 5) ex_store ex_after_A "100" 1 1 2);
    try reflexivity.
  intros r [].
Defined.

(** ** C7: which destinations become members *)

(** C7 (counterexample).  The copy to channel 10 succeeds (remote id 10005)
    but its INSERT fails: no member row is written for it. *)
Lemma C7_copied_but_not_recorded :
  copy_message ex_benv_insert_fails 10 7 5 = Some 10005 /\
  broadcasts (snd (broadcast_cmd ex_benv_insert_fails (ex_cmd 5) ex_store)) = [].
Proof. split; reflexivity. Qed.

(** C7 (amended).  Every run of every handler keeps the members honest.  A
    broadcast row for (channel, remote id) is only ever appended for a
    registered channel whose copy returned that remote id and whose INSERT
    succeeded, so a failed copy never yields a row.  A completed broadcast
    writes a row for every channel whose copy and INSERT succeeded; a
    successful copy whose INSERT fails yields no row and is counted in the
    failure counter.  A broadcast without a reply or ending in a store error
    appends nothing, and [delete_cmd] and [register_forward] leave the rows
    unchanged. *)
Theorem C7_members_are_recorded_copies (env : BroadcastEnv) (u : CmdUpdate)
    (s s' : Store) (r : BroadcastReply) :
  broadcast_cmd env u s = (r, s') ->
  (exists rows,
     broadcasts s' = broadcasts s ++ rows /\
     (forall row, In row rows ->
        exists o, reply_to_message u = Some o /\ In (channel_id row) (channels s) /\
          copy_message env (channel_id row) (orig_chat_id o) (orig_message_id o)
          = Some (channel_message_id row) /\
          insert_ok env (channel_id row) = true) /\
     (forall o b su fa t, reply_to_message u = Some o -> r = BDone b su fa t ->
        (forall ch mid, In ch (channels s) ->
           copy_message env ch (orig_chat_id o) (orig_message_id o) = Some mid ->
           insert_ok env ch = true ->
           exists row, In row rows /\ channel_id row = ch /\ channel_message_id row = mid) /\
        fa = List.length (filter (fun ch => negb (delivered env o ch)) (channels s))) /\
     ((forall b su fa t, r <> BDone b su fa t) -> rows = [])) /\
  (forall denv u2 r2 tr s2, delete_cmd denv u2 s' = (r2, tr, s2) -> s2 = s') /\
  (forall renv reg m, broadcasts (snd (register_forward renv reg m s')) = broadcasts s').
Proof.
  intros H. split; [|split].
  2:{ intros denv u2 r2 tr s2; apply delete_cmd_keeps_store. }
  2:{ intros renv reg m.
      destruct (register_forward_cases renv reg m s') as [-> | (c & _ & _ & _ & _ & ->)];
        reflexivity. }
  unfold broadcast_cmd in H.
  destruct (reply_to_message u) as [o|] eqn:Hu.
  2:{ injection H as <- <-. exists []; rewrite app_nil_r.
      split; [reflexivity|]. split; [intros row []|].
      split; [intros o' ? ? ? ? E; discriminate E | intros _; reflexivity]. }
  destruct (b_store_open env); simpl in H.
  2:{ injection H as <- <-. exists []; rewrite app_nil_r.
      split; [reflexivity|]. split; [intros row []|].
      split; [intros o' ? ? ? ? _ E; discriminate E | intros _; reflexivity]. }
  pose proof (copy_loop_spec env (str_of_int (now_s env)) (effective_chat_id u) o
                (channels s)) as Hs.
  pose proof (copy_loop_counters env (str_of_int (now_s env)) (effective_chat_id u) o
                (channels s)) as Hc.
  destruct (copy_loop env (str_of_int (now_s env)) (effective_chat_id u) o (channels s))
    as [[rows su] fa].
  destruct Hs as (_ & _ & _ & Hi). destruct Hc as [_ Hfa].
  destruct (commit_ok env); injection H as <- <-.
  - exists rows. split; [reflexivity|]. split.
    + intros row Hrow. exists o. split; [reflexivity|].
      apply (proj1 (Hi (channel_id row) (channel_message_id row))).
      exists row; split; [exact Hrow | split; reflexivity].
    + split.
      * intros o' b su' fa' t' Ho' Hr. injection Ho' as <-. injection Hr as _ _ <- _.
        split; [|exact Hfa].
        intros ch mid Hin Hcp Hins.
        exact (proj2 (Hi ch mid) (conj Hin (conj Hcp Hins))).
      * intros Hn. exfalso. exact (Hn _ _ _ _ eq_refl).
  - exists []; rewrite app_nil_r.
    split; [reflexivity|]. split; [intros row []|].
    split; [intros o' ? ? ? ? _ E; discriminate E | intros _; reflexivity].
Qed.

(** The INSERT-failure input: both copies are counted as failures, the copy
    to channel 10 that succeeded among them, and no row is written. *)
Lemma C7_members_are_recorded_copies_witness :
  (exists rows,
     broadcasts ex_store = broadcasts ex_store ++ rows /\
     (forall row, In row rows ->
        exists o, reply_to_message (ex_cmd 5) = Some o /\ In (channel_id row) (channels ex_store) /\
          ex_copy (channel_id row) (orig_chat_id o) (orig_message_id o)
          = Some (channel_message_id row) /\ false = true) /\
     (forall o b su fa t, reply_to_message (ex_cmd 5) = Some o ->
        BDone "100" 0 2 2 = BDone b su fa t ->
        (forall ch mid, In ch (channels ex_store) ->
           ex_copy ch (orig_chat_id o) (orig_message_id o) = Some mid -> false = true ->
           exists row, In row rows /\ channel_id row = ch /\ channel_message_id row = mid) /\
        fa = List.length (filter (fun ch => negb (delivered ex_benv_insert_fails o ch))
                                 (channels ex_store))) /\
     ((forall b su fa t, BDone "100" 0 2 2 <> BDone b su fa t) -> rows = [])) /\
  (forall denv u2 r2 tr s2, delete_cmd denv u2 ex_store = (r2, tr, s2) -> s2 = ex_store) /\
  (forall renv reg m, broadcasts (snd (register_forward renv reg m ex_store)) = broadcasts ex_store).
Proof.
  exact (C7_members_are_recorded_copies ex_benv_insert_fails (ex_cmd 5) ex_store ex_store
           (BDone "100" 0 2 2) eq_refl).
Defined.

(** ** C8: retraction of an unknown origin *)

(** C8.  When no row of the store has the origin of the command, the
    retraction (on a reachable store) answers "no record found", makes no
    delete call and leaves the store unchanged. *)
Theorem C8_unknown_origin_not_found (env : DeleteEnv) (u : CmdUpdate)
    (o : OrigMsg) (s : Store) :
  reply_to_message u = Some o ->
  d_store_open env = true ->
  (forall r, In r (broadcasts s) ->
     ~ (private_chat_id r = effective_chat_id u /\ private_message_id r = orig_message_id o)) ->
  delete_cmd env u s = (DNoRecord, [], s).
Proof.
  intros Hu Hopen Hno. unfold delete_cmd. rewrite Hu, Hopen; cbn [negb].
  unfold find_batch. rewrite find_none_all; [reflexivity|].
  intros r Hr. apply Bool.not_true_iff_false; intros E.
  apply andb_true_iff in E as [E1 E2]. apply Z.eqb_eq in E1, E2.
  exact (Hno r Hr (conj E1 E2)).
Qed.

(** Scenario C of the spec. *)
Lemma C8_unknown_origin_not_found_witness :
  delete_cmd ex_denv (ex_cmd 6) ex_after_A = (DNoRecord, [], ex_after_A).
Proof.
  apply C8_unknown_origin_not_found with (o := mkOrigMsg 7 6); try reflexivity.
  intros r [<- | []]; simpl; intros [_ E]; discriminate E.
Defined.

(** ** C9: registering a channel twice *)

(** C9.  On a registry in the table's order (ascending, hence without
    duplicates), forwarding a channel post into the registration chat twice
    answers "Registered" the first time (the store working) and leaves
    exactly one entry for the channel whatever the second run meets; the
    [INSERT OR IGNORE] of the duplicate raises nothing, so with a working
    store the second run answers "Registered" too. *)
Theorem C9_register_idempotent (env1 env2 : RegisterEnv) (reg : Z) (m : ForwardMsg)
    (cid : Z) (s : Store) :
  StronglySorted Z.lt (channels s) ->
  msg_chat_id m = reg ->
  forward_from_chat m = Some cid ->
  r_store_open env1 = true -> r_write_ok env1 = true -> r_reply_ok env1 = true ->
  let '(r1, s1) := register_forward env1 reg m s in
  let '(r2, s2) := register_forward env2 reg m s1 in
  r1 = RegRegistered cid /\
  channels s2 = channels s1 /\ NoDup (channels s2) /\
  count_occ Z.eq_dec (channels s2) cid = 1%nat /\
  (r_store_open env2 = true -> r_write_ok env2 = true -> r_reply_ok env2 = true ->
   r2 = RegRegistered cid).
Proof.
  intros Hs Hc Hf Ho1 Hw1 Hr1.
  pose proof (insert_or_ignore_sorted cid _ Hs) as Hs1.
  assert (Hin : In cid (insert_or_ignore cid (channels s))).
  { apply insert_or_ignore_in; left; reflexivity. }
  pose proof (insert_or_ignore_present cid _ Hs1 Hin) as Hid.
  pose proof (sorted_nodup _ Hs1) as Hnd.
  unfold register_forward.
  rewrite Hc, Z.eqb_refl, Hf, Ho1, Hw1, Hr1; cbn [negb channels broadcasts].
  assert (Hcnt : count_occ Z.eq_dec (insert_or_ignore cid (channels s)) cid = 1%nat)
    by exact (proj1 (NoDup_count_occ' Z.eq_dec _) Hnd cid Hin).
  destruct (r_store_open env2); cbn [negb].
  - destruct (r_write_ok env2); cbn [negb].
    + rewrite Hid.
      destruct (r_reply_ok env2); simpl;
        (split; [reflexivity|]; split; [reflexivity|]; split; [exact Hnd|];
         split; [exact Hcnt|]); [intros _ _ _; reflexivity | intros _ _ E; discriminate E].
    + simpl. split; [reflexivity|]. split; [reflexivity|]. split; [exact Hnd|].
      split; [exact Hcnt | intros _ E; discriminate E].
  - simpl. split; [reflexivity|]. split; [reflexivity|]. split; [exact Hnd|].
    split; [exact Hcnt | intros E; discriminate E].
Qed.

Lemma C9_register_idempotent_witness :
  let '(r1, s1) := register_forward ex_renv 1 (mkForwardMsg 1 (Some 10)) ex_store in
  let '(r2, s2) := register_forward ex_renv 1 (mkForwardMsg 1 (Some 10)) s1 in
  r1 = RegRegistered 10 /\
  channels s2 = channels s1 /\ NoDup (channels s2) /\
  count_occ Z.eq_dec (channels s2) 10 = 1%nat /\
  (r_store_open ex_renv = true -> r_write_ok ex_renv = true -> r_reply_ok ex_renv = true ->
   r2 = RegRegistered 10).
Proof.
  apply (C9_register_idempotent ex_renv ex_renv 1 (mkForwardMsg 1 (Some 10)) 10 ex_store);
    try reflexivity.
  simpl. constructor; [constructor; constructor; constructor|].
  constructor; [lia | constructor].
Defined.

(** ** C10: retraction counters *)

(** C10.  Each member row fetched for the resolved batch gets one delete
    call and lands in exactly one counter:
    [deleted + not_found = total = number of rows fetched]. *)
Theorem C10_delete_counts (env : DeleteEnv) (u : CmdUpdate) (s s' : Store)
    (d nf t : nat) (tr : list (Z * Z)) :
  delete_cmd env u s = (DDone d nf t, tr, s') ->
  (d + nf)%nat = t /\ t = List.length tr.
Proof.
  unfold delete_cmd.
  destruct (reply_to_message u) as [o|]; [|discriminate].
  destruct (d_store_open env); simpl; [|discriminate].
  destruct (find_batch s _ _) as [bid|]; [|discriminate].
  pose proof (delete_loop_counts env (batch_entries s bid)) as Hc.
  destruct (delete_loop env (batch_entries s bid)) as [d1 nf1].
  intros H; injection H as <- <- <- <- _.
  split; [exact Hc | reflexivity].
Qed.

(** Scenario B of the spec, with one rejected delete added to a two-member
    batch. *)
Lemma C10_delete_counts_witness :
  (1 + 1)%nat = 2%nat /\ 2%nat = List.length [(10, 10005); (10, 10006)].
Proof.
  apply (C10_delete_counts (mkDeleteEnv true (fun _ mid => mid =? 10005)) (ex_cmd 5)
           (snd (broadcast_cmd (ex_benv 100) (ex_cmd 6) ex_after_A))
           (snd (broadcast_cmd (ex_benv 100) (ex_cmd 6) ex_after_A))).
  reflexivity.
Defined.

(** * Further properties of the handlers *)

Section Extras.

(** X1.  After a channel post is forwarded into the registration chat, with
    a working store, the count shown by [/start] grows by one for a new
    channel and stays the same for a channel already registered; when the
    connect, INSERT or commit fails the count is unchanged. *)
Theorem X_start_count_after_register (env : RegisterEnv) (reg : Z) (m : ForwardMsg)
    (cid : Z) (s : Store) :
  StronglySorted Z.lt (channels s) ->
  msg_chat_id m = reg -> forward_from_chat m = Some cid ->
  let s' := snd (register_forward env reg m s) in
  (r_store_open env = true -> r_write_ok env = true ->
   (In cid (channels s) -> start_cmd true s' = start_cmd true s) /\
   (~ In cid (channels s) -> start_cmd true s' = option_map S (start_cmd true s))) /\
  (r_store_open env = false \/ r_write_ok env = false -> start_cmd true s' = start_cmd true s).
Proof.
  intros Hs Hc Hf s'. unfold s', register_forward, start_cmd.
  rewrite Hc, Z.eqb_refl, Hf; cbn [negb].
  split.
  - intros -> ->; cbn [negb].
    destruct (r_reply_ok env); simpl;
      (split; intros H;
       [rewrite (insert_or_ignore_present cid _ Hs H); reflexivity
       | rewrite (insert_or_ignore_absent cid _ H); reflexivity]).
  - intros [-> | ->]; [reflexivity|].
    destruct (r_store_open env); reflexivity.
Qed.

Lemma X_start_count_after_register_witness :
  (r_store_open ex_renv = true -> r_write_ok ex_renv = true ->
   (In 30 (channels ex_store) ->
    start_cmd true (snd (register_forward ex_renv 1 (mkForwardMsg 1 (Some 30)) ex_store))
    = start_cmd true ex_store) /\
   (~ In 30 (channels ex_store) ->
    start_cmd true (snd (register_forward ex_renv 1 (mkForwardMsg 1 (Some 30)) ex_store))
    = option_map S (start_cmd true ex_store))) /\
  (r_store_open ex_renv = false \/ r_write_ok ex_renv = false ->
   start_cmd true (snd (register_forward ex_renv 1 (mkForwardMsg 1 (Some 30)) ex_store))
   = start_cmd true ex_store).
Proof.
  apply (X_start_count_after_register ex_renv 1 (mkForwardMsg 1 (Some 30)) 30 ex_store);
    try reflexivity.
  simpl. constructor; [constructor; constructor; constructor|].
  constructor; [lia | constructor].
Defined.

(** X2.  [register_forward] never drops a registered channel, adds at most
    the forwarded one, never touches the broadcast rows and keeps the
    registry in ascending order (hence duplicate-free); an accepted forward
    over a working store leaves the forwarded channel registered, and a
    failing connect, INSERT or commit leaves the store as it was. *)
Theorem X_register_keeps_registry (env : RegisterEnv) (reg : Z) (m : ForwardMsg)
    (s : Store) :
  let s' := snd (register_forward env reg m s) in
  (forall x, In x (channels s) -> In x (channels s')) /\
  (forall x, In x (channels s') -> In x (channels s) \/ forward_from_chat m = Some x) /\
  (StronglySorted Z.lt (channels s) ->
   StronglySorted Z.lt (channels s') /\ NoDup (channels s')) /\
  broadcasts s' = broadcasts s /\
  (forall cid, msg_chat_id m = reg -> forward_from_chat m = Some cid ->
     r_store_open env = true -> r_write_ok env = true -> In cid (channels s')) /\
  (r_store_open env = false \/ r_write_ok env = false -> s' = s).
Proof.
  intros s'.
  assert (Hfail : r_store_open env = false \/ r_write_ok env = false -> s' = s).
  { intros Hfl. unfold s', register_forward.
    destruct (negb (msg_chat_id m =? reg)); [reflexivity|].
    destruct (forward_from_chat m); [|reflexivity].
    destruct Hfl as [-> | ->]; [reflexivity|].
    destruct (r_store_open env); reflexivity. }
  assert (Hacc : forall cid, msg_chat_id m = reg -> forward_from_chat m = Some cid ->
            r_store_open env = true -> r_write_ok env = true ->
            channels s' = insert_or_ignore cid (channels s)).
  { intros cid Hc Hf Ho Hw. unfold s', register_forward.
    rewrite Hc, Z.eqb_refl, Hf, Ho, Hw; cbn [negb].
    destruct (r_reply_ok env); reflexivity. }
  destruct (register_forward_cases env reg m s) as [Heq | (cid & Hc & Hf & Ho & Hw & Heq)];
    fold s' in Heq; rewrite Heq; cbn [channels broadcasts].
  - split; [intros x Hx; exact Hx|]. split; [intros x Hx; left; exact Hx|].
    split; [intros Hs; split; [exact Hs | apply sorted_nodup, Hs]|].
    split; [reflexivity|]. split; [|intros _; reflexivity].
    intros cid Hc Hf Ho Hw. rewrite <- Heq, (Hacc cid Hc Hf Ho Hw).
    apply insert_or_ignore_in; left; reflexivity.
  - split; [intros x Hx; apply insert_or_ignore_in; right; exact Hx|].
    split; [intros x Hx; apply insert_or_ignore_in in Hx as [-> | Hx];
            [right; exact Hf | left; exact Hx]|].
    split; [intros Hs; pose proof (insert_or_ignore_sorted cid _ Hs) as Hs';
            split; [exact Hs' | apply sorted_nodup, Hs']|].
    split; [reflexivity|]. split.
    + intros c' _ Hf' _ _. rewrite Hf in Hf'; injection Hf' as <-.
      apply insert_or_ignore_in; left; reflexivity.
    + intros [E | E]; congruence.
Qed.

Lemma copy_loop_order (env : BroadcastEnv) (bid : string) (eff : Z) (o : OrigMsg)
    (chs : list Z) :
  let '(rows, _, _) := copy_loop env bid eff o chs in
  map channel_id rows
  = filter (fun ch => match copy_message env ch (orig_chat_id o) (orig_message_id o) with
                      | Some _ => insert_ok env ch
                      | None => false
                      end) chs.
Proof.
  induction chs as [|c rest IH]; simpl; [reflexivity|].
  destruct (copy_loop env bid eff o rest) as [[rows su] fa].
  destruct (copy_message env c (orig_chat_id o) (orig_message_id o)); [|exact IH].
  destruct (insert_ok env c); simpl; [rewrite IH; reflexivity | exact IH].
Qed.

(** X3.  A completed broadcast appends its rows in channel order: their
    channel ids are the registered channels whose copy and INSERT both
    succeeded, in registry order, as many as the reported successes; every
    row carries the batch id, the chat the command came from and the id of
    the replied-to message; the registry itself is left unchanged. *)
Theorem X_broadcast_rows_in_channel_order (env : BroadcastEnv) (u : CmdUpdate)
    (o : OrigMsg) (s s' : Store) (b : string) (su fa t : nat) :
  reply_to_message u = Some o ->
  broadcast_cmd env u s = (BDone b su fa t, s') ->
  let ok := fun ch => match copy_message env ch (orig_chat_id o) (orig_message_id o) with
                      | Some _ => insert_ok env ch
                      | None => false
                      end in
  exists rows,
    channels s' = channels s /\
    broadcasts s' = broadcasts s ++ rows /\
    map channel_id rows = filter ok (channels s) /\
    su = List.length (filter ok (channels s)) /\
    Forall (fun r => batch_id r = b /\ private_chat_id r = effective_chat_id u /\
                     private_message_id r = orig_message_id o) rows.
Proof.
  intros Hu H ok.
  destruct (broadcast_cmd_done _ _ _ _ _ _ _ _ H)
    as (o0 & rows & Ho & _ & _ & _ & Hl & _ & ->).
  rewrite Hu in Ho; injection Ho as <-.
  pose proof (copy_loop_spec env b (effective_chat_id u) o (channels s)) as Hs.
  pose proof (copy_loop_order env b (effective_chat_id u) o (channels s)) as Hord.
  rewrite Hl in Hs, Hord. destruct Hs as (_ & Hlen & Hf & _).
  exists rows; split; [reflexivity|]. split; [reflexivity|].
  split; [exact Hord|]. split; [|exact Hf].
  rewrite <- Hlen, <- (length_map channel_id rows), Hord; reflexivity.
Qed.

Lemma X_broadcast_rows_in_channel_order_witness :
  exists rows,
    channels ex_after_A = channels ex_store /\
    broadcasts ex_after_A = broadcasts ex_store ++ rows /\
    map channel_id rows = [10] /\
    1%nat = List.length [10] /\
    Forall (fun r => batch_id r = "100"%string /\ private_chat_id r = 7 /\
                     private_message_id r = 5) rows.
Proof.
  exact (X_broadcast_rows_in_channel_order (ex_benv 100) (ex_cmd 5) (mkOrigMsg 7 5)
           ex_store ex_after_A "100" 1 1 2 eq_refl eq_refl).
Defined.

Lemma delete_cmd_no_row (env : DeleteEnv) (u : CmdUpdate) (o : OrigMsg) (s : Store) :
  reply_to_message u = Some o ->
  d_store_open env = true ->
  (forall r, In r (broadcasts s) ->
     ~ (private_chat_id r = effective_chat_id u /\ private_message_id r = orig_message_id o)) ->
  delete_cmd env u s = (DNoRecord, [], s).
Proof.
  intros Hu Hopen Hno. unfold delete_cmd. rewrite Hu, Hopen; cbn [negb].
  unfold find_batch. rewrite find_none_all; [reflexivity|].
  intros r Hr. apply Bool.not_true_iff_false; intros E.
  apply andb_true_iff in E as [E1 E2]. apply Z.eqb_eq in E1, E2.
  exact (Hno r Hr (conj E1 E2)).
Qed.

(** X4.  A broadcast in which no destination succeeded writes no row, so
    (when its origin had no earlier row) the message cannot be retracted
    afterwards: [/delete] on it answers "no record found" with no delete
    call. *)
Theorem X_zero_success_broadcast_unretractable (env : BroadcastEnv) (denv : DeleteEnv)
    (u : CmdUpdate) (o : OrigMsg) (s s' : Store) (b : string) (fa t : nat) :
  reply_to_message u = Some o ->
  (forall r, In r (broadcasts s) ->
     ~ (private_chat_id r = effective_chat_id u /\ private_message_id r = orig_message_id o)) ->
  broadcast_cmd env u s = (BDone b 0 fa t, s') ->
  d_store_open denv = true ->
  broadcasts s' = broadcasts s /\ delete_cmd denv u s' = (DNoRecord, [], s').
Proof.
  intros Hu Hno H Hopen.
  destruct (broadcast_cmd_done _ _ _ _ _ _ _ _ H)
    as (o0 & rows & _ & _ & _ & _ & Hl & _ & ->).
  pose proof (copy_loop_spec env b (effective_chat_id u) o0 (channels s)) as Hs.
  rewrite Hl in Hs. destruct Hs as (_ & Hlen & _).
  destruct rows; [|discriminate Hlen].
  rewrite app_nil_r. split; [reflexivity|].
  apply (delete_cmd_no_row denv u o); [exact Hu | exact Hopen |].
  simpl; exact Hno.
Qed.

Lemma X_zero_success_broadcast_unretractable_witness :
  broadcasts (snd (broadcast_cmd ex_benv_all_fail (ex_cmd 5) ex_store)) = broadcasts ex_store /\
  delete_cmd ex_denv (ex_cmd 5) (snd (broadcast_cmd ex_benv_all_fail (ex_cmd 5) ex_store))
  = (DNoRecord, [], snd (broadcast_cmd ex_benv_all_fail (ex_cmd 5) ex_store)).
Proof.
  apply (X_zero_success_broadcast_unretractable ex_benv_all_fail ex_denv (ex_cmd 5)
           (mkOrigMsg 7 5) ex_store _ "100" 2 2); try reflexivity.
  intros r [].
Defined.

Lemma find_batch_some (s : Store) (chat mid : Z) (bid : string) :
  find_batch s chat mid = Some bid ->
  exists r, In r (broadcasts s) /\ private_chat_id r = chat /\
            private_message_id r = mid /\ batch_id r = bid.
Proof.
  unfold find_batch.
  destruct (find _ (broadcasts s)) as [r|] eqn:E; simpl; [|discriminate].
  intros Hb; injection Hb as <-.
  apply find_some in E as [Hin Hf].
  apply andb_true_iff in Hf as [E1 E2]. apply Z.eqb_eq in E1, E2.
  exists r; repeat split; assumption.
Qed.

(** X5.  When [/delete] resolves a batch, the batch is never empty: the
    reported total is at least one and the targets include the copy recorded
    in the row that matched the replied-to message. *)
Theorem X_resolved_batch_nonempty (env : DeleteEnv) (u : CmdUpdate) (o : OrigMsg)
    (s s' : Store) (d nf t : nat) (tr : list (Z * Z)) :
  reply_to_message u = Some o ->
  delete_cmd env u s = (DDone d nf t, tr, s') ->
  (1 <= t)%nat /\
  exists r, In r (broadcasts s) /\ private_chat_id r = effective_chat_id u /\
            private_message_id r = orig_message_id o /\
            In (channel_id r, channel_message_id r) tr.
Proof.
  intros Hu. unfold delete_cmd. rewrite Hu.
  destruct (d_store_open env); simpl; [|discriminate].
  destruct (find_batch s (effective_chat_id u) (orig_message_id o)) as [bid|] eqn:Ef;
    [|discriminate].
  destruct (delete_loop env (batch_entries s bid)) as [d1 nf1].
  intros H; injection H as <- <- <- <- _.
  destruct (find_batch_some _ _ _ _ Ef) as (r & Hin & Hc & Hm & Hb).
  assert (Hr : In (channel_id r, channel_message_id r) (batch_entries s bid)).
  { unfold batch_entries. apply in_map_iff; exists r; split; [reflexivity|].
    apply filter_In; split; [exact Hin|].
    rewrite Hb; apply String.eqb_refl. }
  split.
  - destruct (batch_entries s bid); [contradiction | simpl; lia].
  - exists r; repeat split; assumption.
Qed.

Lemma X_resolved_batch_nonempty_witness :
  (1 <= 1)%nat /\
  exists r, In r (broadcasts ex_after_A) /\ private_chat_id r = 7 /\
            private_message_id r = 5 /\ In (channel_id r, channel_message_id r) [(10, 10005)].
Proof.
  exact (X_resolved_batch_nonempty ex_denv (ex_cmd 5) (mkOrigMsg 7 5) ex_after_A ex_after_A
           1 0 1 [(10, 10005)] eq_refl eq_refl).
Defined.

Lemma delete_loop_filter (env : DeleteEnv) (entries : list (Z * Z)) :
  delete_loop env entries
  = (List.length (filter (fun p => delete_message env (fst p) (snd p)) entries),
     List.length (filter (fun p => negb (delete_message env (fst p) (snd p))) entries)).
Proof.
  induction entries as [|[ch mid] rest IH]; simpl; [reflexivity|].
  rewrite IH. destruct (delete_message env ch mid); reflexivity.
Qed.

(** X6.  The two counters of [/delete] are exactly the number of fetched
    rows whose delete call succeeded and the number whose delete call
    raised. *)
Theorem X_delete_counters_by_outcome (env : DeleteEnv) (u : CmdUpdate) (s s' : Store)
    (d nf t : nat) (tr : list (Z * Z)) :
  delete_cmd env u s = (DDone d nf t, tr, s') ->
  d = List.length (filter (fun p => delete_message env (fst p) (snd p)) tr) /\
  nf = List.length (filter (fun p => negb (delete_message env (fst p) (snd p))) tr).
Proof.
  unfold delete_cmd.
  destruct (reply_to_message u) as [o|]; [|discriminate].
  destruct (d_store_open env); simpl; [|discriminate].
  destruct (find_batch s _ _) as [bid|]; [|discriminate].
  rewrite delete_loop_filter.
  intros H; injection H as <- <- _ <- _. split; reflexivity.
Qed.

Lemma X_delete_counters_by_outcome_witness :
  1%nat = List.length (filter (fun p => snd p =? 10005) [(10, 10005); (10, 10006)]) /\
  1%nat = List.length (filter (fun p => negb (snd p =? 10005)) [(10, 10005); (10, 10006)]).
Proof.
  exact (X_delete_counters_by_outcome (mkDeleteEnv true (fun _ mid => mid =? 10005)) (ex_cmd 5)
           (snd (broadcast_cmd (ex_benv 100) (ex_cmd 6) ex_after_A))
           (snd (broadcast_cmd (ex_benv 100) (ex_cmd 6) ex_after_A))
           1 1 2 [(10, 10005); (10, 10006)] eq_refl).
Defined.

Lemma handlers_keep_store_ok :
  (forall env reg m s, store_ok s -> store_ok (snd (register_forward env reg m s))) /\
  (forall env u s, store_ok s -> store_ok (snd (broadcast_cmd env u s))) /\
  (forall env u s, store_ok s -> store_ok (snd (delete_cmd env u s))).
Proof.
  split; [|split].
  - intros env reg m s [Hs Hrows].
    destruct (register_forward_cases env reg m s) as [-> | (c & _ & _ & _ & _ & ->)];
      [split; assumption|].
    split; [apply insert_or_ignore_sorted; exact Hs|].
    intros r Hr; apply insert_or_ignore_in; right; exact (Hrows r Hr).
  - intros env u s [Hs Hrows].
    unfold broadcast_cmd.
    destruct (reply_to_message u) as [o|]; [|split; assumption].
    destruct (b_store_open env); simpl; [|split; assumption].
    pose proof (copy_loop_spec env (str_of_int (now_s env)) (effective_chat_id u) o
                  (channels s)) as Hsp.
    destruct (copy_loop env (str_of_int (now_s env)) (effective_chat_id u) o (channels s))
      as [[rows su] fa].
    destruct Hsp as (_ & _ & _ & Hi).
    destruct (commit_ok env); simpl; [|split; assumption].
    split; [exact Hs|].
    intros r Hr. apply in_app_or in Hr as [Hr | Hr]; [apply Hrows, Hr|].
    destruct (proj1 (Hi (channel_id r) (channel_message_id r))
                (ex_intro _ r (conj Hr (conj eq_refl eq_refl)))) as (Hc & _).
    exact Hc.
  - intros env u s Hs.
    destruct (delete_cmd env u s) as [[r tr] s2] eqn:E; simpl.
    rewrite (delete_cmd_keeps_store _ _ _ _ _ _ E); exact Hs.
Qed.

Lemma reachable_store_ok (s : Store) :
  reachable s ->
  NoDup (channels s) /\ forall r, In r (broadcasts s) -> In (channel_id r) (channels s).
Proof.
  assert (Hall : reachable s -> store_ok s).
  { destruct handlers_keep_store_ok as (Hreg & Hbc & Hdel).
    induction 1 as [db Hdb IH | env reg m s _ IH | env u s _ IH | env u s _ IH].
    - destruct db as [s0|]; simpl.
      + exact (IH s0 eq_refl).
      + split; [constructor | intros r []].
    - exact (Hreg env reg m s IH).
    - exact (Hbc env u s IH).
    - exact (Hdel env u s IH). }
  intros Hr. destruct (Hall Hr) as [Hs Hrows].
  split; [apply sorted_nodup, Hs | exact Hrows].
Qed.

(** X7.  In every store the bot can reach (from [init_db], also over an
    existing file, and any run of the three handlers) the registry holds
    each channel once and every recorded copy belongs to a registered
    channel. *)
Theorem X_reachable_store_invariant (s : Store) :
  reachable s ->
  NoDup (channels s) /\ forall r, In r (broadcasts s) -> In (channel_id r) (channels s).
Proof. exact (reachable_store_ok s). Qed.

Lemma ex_after_A_reachable : reachable ex_after_A.
Proof.
  apply reach_broadcast.
  change ex_store with (snd (register_forward ex_renv 1 (mkForwardMsg 1 (Some 20))
                              (snd (register_forward ex_renv 1 (mkForwardMsg 1 (Some 10))
                                     (init_db None))))).
  apply reach_register, reach_register, reach_init. intros s E; discriminate E.
Qed.

Lemma X_reachable_store_invariant_witness :
  NoDup (channels ex_after_A) /\
  forall r, In r (broadcasts ex_after_A) -> In (channel_id r) (channels ex_after_A).
Proof. exact (X_reachable_store_invariant ex_after_A ex_after_A_reachable). Defined.

(** X8.  On a reachable store every delete call made by [/delete] targets a
    registered channel. *)
Theorem X_delete_targets_registered (env : DeleteEnv) (u : CmdUpdate) (s s' : Store)
    (r : DeleteReply) (tr : list (Z * Z)) :
  reachable s ->
  delete_cmd env u s = (r, tr, s') ->
  forall ch mid, In (ch, mid) tr -> In ch (channels s).
Proof.
  intros Hr. destruct (reachable_store_ok s Hr) as [_ Hrows].
  unfold delete_cmd.
  destruct (reply_to_message u) as [o|]; [|intros E; injection E as _ <- _; intros ? ? []].
  destruct (d_store_open env); simpl; [|intros E; injection E as _ <- _; intros ? ? []].
  destruct (find_batch s _ _) as [bid|]; [|intros E; injection E as _ <- _; intros ? ? []].
  destruct (delete_loop _ _); intros E; injection E as _ <- _.
  intros ch mid Hin. unfold batch_entries in Hin.
  apply in_map_iff in Hin as (x & Ex & Hx). injection Ex as <- <-.
  apply filter_In in Hx as [Hx _]. exact (Hrows x Hx).
Qed.

Lemma X_delete_targets_registered_witness : In 10 (channels ex_after_A).
Proof.
  exact (X_delete_targets_registered ex_denv (ex_cmd 5) ex_after_A ex_after_A
           (DDone 1 0 1) [(10, 10005)] ex_after_A_reachable eq_refl 10 10005
           (or_introl eq_refl)).
Defined.

End Extras.
